(** * A greeting service: the greeting rule, its two endpoints and their routing

    The program is a small Python web service.  [app/api/hello/service.py]
    holds the one rule with a branch, [generate_greeting]; the two handlers
    [hello] and [health] wrap a value in a response model; [app/api/routes.py]
    gathers both route groups into one router.

    Python is dynamically typed, so the rule is embedded over the values it
    can receive ([None] or a [str]) and returns a value again; the response
    models validate their field on construction and may raise, which is
    carried by a result type.  A second embedding runs the same code with
    its effects, the state of the process and exceptions, over arbitrary
    objects; it is what totality and the independence of invocations are
    stated on. *)

From Stdlib Require Import String Ascii List Bool Arith Lia.
Import ListNotations.

Open Scope string_scope.

(** ** Python values and the two protocols the rule relies on *)

(** The values of [Optional[str]]. *)
Inductive pyval : Type :=
| PyNone
| PyStr (s : string).

(** Truth value testing, as done by [if name:]: [None] is false and a
    string is true exactly when its length is not zero. *)
Definition truthy (v : pyval) : bool :=
  match v with
  | PyNone => false
  | PyStr s => negb (Nat.eqb (String.length s) 0)
  end.

(** What a replacement field [{v}] of an f-string expands to when it has
    neither a conversion nor a format specification. *)
Definition format_value (v : pyval) : string :=
  match v with
  | PyNone => "None"
  | PyStr s => s
  end.

(** [str.startswith] and [str.endswith] with one string argument. *)
Fixpoint startswith (s pre : string) {struct pre} : bool :=
  match pre with
  | EmptyString => true
  | String c pre' =>
      match s with
      | EmptyString => false
      | String d s' => Ascii.eqb d c && startswith s' pre'
      end
  end.

Definition endswith (s suf : string) : bool :=
  let n := String.length s in
  let m := String.length suf in
  if Nat.leb m n then String.eqb (substring (n - m) m s) suf else false.

(** ** Exceptions *)

Inductive exn : Type :=
| ValidationError (model field : string)
| OtherException (type_name : string).

Inductive result (A : Type) : Type :=
| Ok (a : A)
| Raise (e : exn).

Arguments Ok {A} a.
Arguments Raise {A} e.

(** ** app/api/hello/service.py *)

Module hello_service.

Definition generate_greeting (name : pyval) : pyval :=
  if truthy name
  then PyStr ("Hello " ++ format_value name ++ "!")
  else PyStr "Hello World!".

End hello_service.

(** ** JSON documents, requests and responses *)

#[local] Set Warnings "-register-all".

Inductive json : Type :=
| JNull
| JString (s : string)
| JObject (members : list (string * json)).

Inductive http_method : Type :=
| GET | HEAD | POST | PUT | PATCH | DELETE | OPTIONS.

Definition http_method_eqb (a b : http_method) : bool :=
  match a, b with
  | GET, GET | HEAD, HEAD | POST, POST | PUT, PUT
  | PATCH, PATCH | DELETE, DELETE | OPTIONS, OPTIONS => true
  | _, _ => false
  end.

(** A request as the handlers and the router see it: the method, the path
    and the decoded query string, a sequence of key and value pairs in the
    order they were written, blank values kept. *)
Record Request : Type := mkRequest {
  method : http_method;
  path : string;
  query_params : list (string * string)
}.

Inductive Response : Type :=
| JSONResponse (status_code : nat) (content : json)
| PlainTextResponse (status_code : nat) (content : string)
| RedirectResponse (status_code : nat) (url_path : string)
    (url_query : list (string * string)).

(** Looking a key up in the query parameters: with a repeated key the last
    pair wins. *)
Fixpoint query_get (key : string) (q : list (string * string)) : option string :=
  match q with
  | [] => None
  | (k, v) :: q' =>
      match query_get key q' with
      | Some v' => Some v'
      | None => if String.eqb k key then Some v else None
      end
  end.

(** A parameter declared [x: str = Query(default)]: the value of the key in
    the query string when it is there, the default otherwise. *)
Definition Query (default : pyval) (alias : string) (req : Request) : pyval :=
  match query_get alias (query_params req) with
  | Some v => PyStr v
  | None => default
  end.

(** What the framework sends for the outcome of a handler declared with a
    response model: the dumped model with status 200, and the server error
    page when the handler raised. *)
Definition serialize_response {A : Type} (dump : A -> json) (r : result A)
  : Response :=
  match r with
  | Ok a => JSONResponse 200 (dump a)
  | Raise _ => PlainTextResponse 500 "Internal Server Error"
  end.

(** ** app/api/hello/schemas.py *)

Module hello_schemas.

Record HelloResponse : Type := mkHelloResponse { message : string }.

(** [HelloResponse(message=v)]: the field is required and of type [str]. *)
Definition HelloResponse_init (v : pyval) : result HelloResponse :=
  match v with
  | PyStr s => Ok (mkHelloResponse s)
  | PyNone => Raise (ValidationError "HelloResponse" "message")
  end.

Definition model_dump (r : HelloResponse) : json :=
  JObject [("message", JString (message r))].

End hello_schemas.

(** ** app/api/health/schemas.py *)

Module health_schemas.

(** Modelled from the spec: the file that declares [HealthResponse] is not
    among the sources; the data model gives it one field, [status], a
    text. *)
Record HealthResponse : Type := mkHealthResponse { status : string }.

(** Modelled from the spec: [HealthResponse(status=v)], the field being a
    text as in the sibling model [HelloResponse]. *)
Definition HealthResponse_init (v : pyval) : result HealthResponse :=
  match v with
  | PyStr s => Ok (mkHealthResponse s)
  | PyNone => Raise (ValidationError "HealthResponse" "status")
  end.

Definition model_dump (r : HealthResponse) : json :=
  JObject [("status", JString (status r))].

End health_schemas.

(** ** Routers *)

Record APIRoute : Type := mkAPIRoute {
  route_path : string;
  route_methods : list http_method;
  endpoint : Request -> Response
}.

(** A router is the list of its routes, in the order they were added. *)
Definition APIRouter : Type := list APIRoute.

Definition APIRouter_new : APIRouter := [].

(** The decorator [@router.get(p, response_model=...)]. *)
Definition router_get (self : APIRouter) (p : string)
  (app : Request -> Response) : APIRouter :=
  (self ++ [mkAPIRoute p [GET] app])%list.

(** [self.include_router(other, prefix=prefix)]: every route of [other] is
    added again to [self], its path behind the prefix. *)
Definition prefixed (prefix : string) (r : APIRoute) : APIRoute :=
  mkAPIRoute (prefix ++ route_path r) (route_methods r) (endpoint r).

Definition include_router (self other : APIRouter) (prefix : string)
  : APIRouter :=
  (self ++ map (prefixed prefix) other)%list.

Inductive Match : Type := NONE | PARTIAL | FULL.

Definition newline : string := String "010" EmptyString.

(** The routes of this program have no path parameter, so the pattern of a
    route is the regular expression [^path$] over the path's own
    characters.  Its end anchor matches at the end of the string and also
    just before a newline that ends the string, so the pattern accepts the
    path itself and the path followed by one newline. *)
Definition path_matches (pattern p : string) : bool :=
  String.eqb pattern p || String.eqb (pattern ++ newline) p.

Definition matches (r : APIRoute) (req : Request) : Match :=
  if path_matches (route_path r) (path req)
  then if existsb (http_method_eqb (method req)) (route_methods r)
       then FULL else PARTIAL
  else NONE.

Definition is_match (m : Match) : bool :=
  match m with NONE => false | _ => true end.

(** The loop over the routes: the first full match is taken at once; the
    first partial match (path right, method wrong) is remembered and used
    when the loop ends without a full match. *)
Fixpoint find_route (routes : APIRouter) (req : Request)
  (partial : option APIRoute) : option (Match * APIRoute) :=
  match routes with
  | [] =>
      match partial with
      | Some r => Some (PARTIAL, r)
      | None => None
      end
  | r :: rest =>
      match matches r req with
      | FULL => Some (FULL, r)
      | PARTIAL =>
          find_route rest req
            (match partial with None => Some r | Some p => Some p end)
      | NONE => find_route rest req partial
      end
  end.

(** [str.rstrip("/")]. *)
Fixpoint rstrip_slash (s : string) : string :=
  match s with
  | EmptyString => EmptyString
  | String c s' =>
      match rstrip_slash s' with
      | EmptyString => if Ascii.eqb c "/" then EmptyString else String c EmptyString
      | t => String c t
      end
  end.

Definition redirect_path (p : string) : string :=
  if endswith p "/" then rstrip_slash p else p ++ "/".

Definition not_found : Response :=
  JSONResponse 404 (JObject [("detail", JString "Not Found")]).

Definition method_not_allowed : Response :=
  JSONResponse 405 (JObject [("detail", JString "Method Not Allowed")]).

(** Serving a request from a router: the route found by the loop; failing
    that, a redirection when the path with its trailing slash toggled is
    the path of some route; failing that, not found. *)
Definition Router_call (routes : APIRouter) (req : Request) : Response :=
  match find_route routes req None with
  | Some (FULL, r) => endpoint r req
  | Some (_, _) => method_not_allowed
  | None =>
      if negb (String.eqb (path req) "/") then
        let req' := mkRequest (method req) (redirect_path (path req))
                              (query_params req) in
        if existsb (fun r => is_match (matches r req')) routes
        then RedirectResponse 307 (path req') (query_params req')
        else not_found
      else not_found
  end.

(** No route of the list accepts the path of the request. *)
Definition no_match (req : Request) (l : APIRouter) : Prop :=
  forall r, In r l -> matches r req = NONE.

(** Two groups of routes with no path in common: no path is accepted by
    a route of each. *)
Definition paths_disjoint (l1 l2 : APIRouter) : Prop :=
  forall r1 r2, In r1 l1 -> In r2 l2 ->
  forall p, path_matches (route_path r1) p = true ->
            path_matches (route_path r2) p = true -> False.

(** ** app/api/hello/router.py *)

Module hello_router.
Import hello_schemas hello_service.

Definition hello (name : pyval) : result HelloResponse :=
  let message := generate_greeting name in
  HelloResponse_init message.

(** The handler as the framework calls it: [name] comes from the query
    string and defaults to [None]. *)
Definition hello_app (req : Request) : Response :=
  serialize_response model_dump (hello (Query PyNone "name" req)).

Definition router : APIRouter :=
  router_get APIRouter_new "/hello" hello_app.

End hello_router.

(** ** app/api/health/router.py *)

Module health_router.
Import health_schemas.

Definition health : result HealthResponse :=
  HealthResponse_init (PyStr "healthy").

Definition health_app (req : Request) : Response :=
  serialize_response model_dump health.

Definition router : APIRouter :=
  router_get APIRouter_new "/health" health_app.

End health_router.

(** ** app/api/routes.py *)

Module routes.

Definition router : APIRouter :=
  let router := APIRouter_new in
  let router := include_router router hello_router.router "" in
  let router := include_router router health_router.router "" in
  router.

(** The same composition with the two inclusions exchanged. *)
Definition router_health_first : APIRouter :=
  let router := APIRouter_new in
  let router := include_router router health_router.router "" in
  let router := include_router router hello_router.router "" in
  router.

End routes.

(** ** app/main.py *)

Module main.

(** The routes that [app.include_router(router, prefix="/api")] adds to the
    application.  They are not all the routes of the application: the
    framework gives it routes of its own for the interface description and
    its documentation pages, which are no part of this program and are not
    modelled. *)
Definition api_routes : APIRouter :=
  include_router APIRouter_new routes.router "/api".

End main.

(** ** The program with its effects

    The definitions above take the rule and the handlers as functions of
    their arguments.  Here they are written once more the way Python runs
    them: in a process that holds state between requests, on objects whose
    annotations nobody checks, with exceptions that end a call early.  A
    computation takes the state of the process and gives back an outcome
    and the state it leaves. *)

Definition Proc (S A : Type) : Type := S -> result A * S.

Definition ret {S A : Type} (a : A) : Proc S A := fun st => (Ok a, st).

Definition raise {S A : Type} (e : exn) : Proc S A := fun st => (Raise e, st).

Definition bind {S A B : Type} (m : Proc S A) (k : A -> Proc S B) : Proc S B :=
  fun st =>
    match m st with
    | (Ok a, st') => k a st'
    | (Raise e, st') => (Raise e, st')
    end.

Notation "x <- m ;; k" := (bind m (fun x => k))
  (at level 61, m at next level, right associativity).

(** An object a Python function may be handed.  [Optional[str]] promises
    [None] or a string; an object of any other type answers the truth test
    and the formatting request with methods of its own ([__bool__],
    [__format__]), which may raise and may touch the state. *)
Inductive pyobj (S : Type) : Type :=
| ONone
| OStr (s : string)
| OObject (truth : Proc S bool) (format : Proc S string).

Arguments ONone {S}.
Arguments OStr {S} s.
Arguments OObject {S} truth format.

Definition obj_of_val {S : Type} (v : pyval) : pyobj S :=
  match v with
  | PyNone => ONone
  | PyStr s => OStr s
  end.

(** [bool(o)], as [if o:] asks for it. *)
Definition py_truth {S : Type} (o : pyobj S) : Proc S bool :=
  match o with
  | ONone => ret false
  | OStr s => ret (negb (Nat.eqb (String.length s) 0))
  | OObject truth _ => truth
  end.

(** [format(o, "")], as a replacement field [{o}] asks for it. *)
Definition py_format {S : Type} (o : pyobj S) : Proc S string :=
  match o with
  | ONone => ret "None"
  | OStr s => ret s
  | OObject _ format => format
  end.

Module effectful.
Import hello_schemas health_schemas.

(** app/api/hello/service.py *)
Definition generate_greeting {S : Type} (name : pyobj S) : Proc S (pyobj S) :=
  b <- py_truth name ;;
  if b
  then (s <- py_format name ;; ret (OStr ("Hello " ++ s ++ "!")))
  else ret (OStr "Hello World!").

(** [HelloResponse(message=o)]: only a string passes the validation. *)
Definition HelloResponse_init {S : Type} (o : pyobj S) : Proc S HelloResponse :=
  match o with
  | OStr s => ret (mkHelloResponse s)
  | _ => raise (ValidationError "HelloResponse" "message")
  end.

(** app/api/hello/router.py *)
Definition hello {S : Type} (name : pyobj S) : Proc S HelloResponse :=
  message <- generate_greeting name ;;
  HelloResponse_init message.

(** Modelled from the spec: [HealthResponse(status=o)], the field being a
    text as in the sibling model [HelloResponse]. *)
Definition HealthResponse_init {S : Type} (o : pyobj S) : Proc S HealthResponse :=
  match o with
  | OStr s => ret (mkHealthResponse s)
  | _ => raise (ValidationError "HealthResponse" "status")
  end.

(** app/api/health/router.py *)
Definition health {S : Type} : Proc S HealthResponse :=
  HealthResponse_init (OStr "healthy").

(** The framework around a handler: it sends what the handler returned or
    the server error page, and hands the state on as the handler left
    it. *)
Definition respond {S A : Type} (dump : A -> json) (m : Proc S A)
  : S -> Response * S :=
  fun st => let (r, st') := m st in (serialize_response dump r, st').

Definition hello_app {S : Type} (req : Request) : S -> Response * S :=
  respond hello_schemas.model_dump
    (hello (obj_of_val (Query PyNone "name" req))).

Definition health_app {S : Type} (req : Request) : S -> Response * S :=
  respond health_schemas.model_dump health.

(** One invocation of an endpoint, and a run of invocations one after the
    other in one process. *)
Inductive endpoint_call : Type :=
| CallHello (req : Request)
| CallHealth (req : Request).

Definition call {S : Type} (c : endpoint_call) : S -> Response * S :=
  match c with
  | CallHello req => hello_app req
  | CallHealth req => health_app req
  end.

Fixpoint run_calls {S : Type} (cs : list endpoint_call) (st : S)
  : list Response * S :=
  match cs with
  | [] => ([], st)
  | c :: cs' =>
      let (r, st') := call c st in
      let (rs, st'') := run_calls cs' st' in
      (r :: rs, st'')
  end.

End effectful.

(** The response of an invocation as the handlers taken as functions give
    it. *)
Definition response_of (c : effectful.endpoint_call) : Response :=
  match c with
  | effectful.CallHello req => hello_router.hello_app req
  | effectful.CallHealth req => health_router.health_app req
  end.

(** ** Reading responses *)

Definition status_code_of (r : Response) : nat :=
  match r with
  | JSONResponse c _ | PlainTextResponse c _ | RedirectResponse c _ _ => c
  end.

(** A response seen from outside a mount point: the target of a
    redirection is a path below the prefix, everything else is unchanged. *)
Definition relocate (prefix : string) (r : Response) : Response :=
  match r with
  | RedirectResponse c p q => RedirectResponse c (prefix ++ p) q
  | _ => r
  end.

(** * Properties *)

(** ** Strings *)

Section StringFacts.

Lemma length_append (s t : string) :
  String.length (s ++ t) = String.length s + String.length t.
Proof.
  induction s as [|c s IH]; simpl; [reflexivity | now rewrite IH].
Qed.

Lemma append_cancel_l (s t1 t2 : string) : s ++ t1 = s ++ t2 -> t1 = t2.
Proof.
  induction s as [|c s IH]; simpl; intro H; [exact H|].
  injection H as H. now apply IH.
Qed.

(** Two strings that end with the same suffix and are equal have equal
    fronts; the lengths rule out a front running into the suffix. *)
Lemma append_cancel_r (s1 s2 t : string) : s1 ++ t = s2 ++ t -> s1 = s2.
Proof.
  revert s2; induction s1 as [|c s1 IH]; intros [|d s2] H; simpl in H.
  - reflexivity.
  - apply (f_equal String.length) in H. simpl in H.
    rewrite length_append in H. lia.
  - apply (f_equal String.length) in H. simpl in H.
    rewrite length_append in H. lia.
  - injection H as Hc Hs. subst d. f_equal. now apply IH.
Qed.

Lemma startswith_append (pre t : string) : startswith (pre ++ t) pre = true.
Proof.
  induction pre as [|c pre IH]; simpl; [reflexivity|].
  now rewrite Ascii.eqb_refl, IH.
Qed.

Lemma startswith_spec (s pre : string) :
  startswith s pre = true <-> exists t, s = pre ++ t.
Proof.
  split.
  - revert s; induction pre as [|c pre IH]; intros s H; simpl in H.
    + now exists s.
    + destruct s as [|d s]; [discriminate|].
      apply andb_true_iff in H. destruct H as [Hc Hs].
      apply Ascii.eqb_eq in Hc. subst d.
      destruct (IH _ Hs) as [t ->]. now exists t.
  - intros [t ->]. apply startswith_append.
Qed.

Lemma substring_append_tail (s t : string) :
  substring (String.length s) (String.length t) (s ++ t) = t.
Proof.
  induction s as [|c s IH]; simpl.
  - induction t as [|d t IHt]; simpl; [reflexivity | now rewrite IHt].
  - exact IH.
Qed.

Lemma substring_split (n : nat) (s : string) :
  n <= String.length s ->
  substring 0 n s ++ substring n (String.length s - n) s = s.
Proof.
  revert n; induction s as [|c s IH]; intros [|n] Hn; simpl in *.
  - reflexivity.
  - lia.
  - f_equal. specialize (IH 0 (Nat.le_0_l _)). simpl in IH.
    rewrite Nat.sub_0_r in IH.
    destruct s; simpl in *; [reflexivity | exact IH].
  - f_equal. apply IH. lia.
Qed.

Lemma endswith_append (t suf : string) : endswith (t ++ suf) suf = true.
Proof.
  unfold endswith. rewrite length_append.
  replace (Nat.leb (String.length suf) (String.length t + String.length suf))
    with true by (symmetry; apply Nat.leb_le; lia).
  replace (String.length t + String.length suf - String.length suf)
    with (String.length t) by lia.
  rewrite substring_append_tail. apply String.eqb_refl.
Qed.

Lemma endswith_spec (s suf : string) :
  endswith s suf = true <-> exists t, s = t ++ suf.
Proof.
  split.
  - unfold endswith. intro H.
    remember (String.length suf) as m eqn:Hm.
    destruct (Nat.leb m (String.length s)) eqn:Hle; [|discriminate].
    apply Nat.leb_le in Hle. apply String.eqb_eq in H.
    exists (substring 0 (String.length s - m) s).
    rewrite <- H.
    assert (E := substring_split (String.length s - m) s (Nat.le_sub_l _ _)).
    replace (String.length s - (String.length s - m)) with m in E by lia.
    symmetry. exact E.
  - intros [t ->]. apply endswith_append.
Qed.

Lemma append_assoc (a b c : string) : (a ++ b) ++ c = a ++ (b ++ c).
Proof.
  induction a as [|x a IH]; simpl; [reflexivity | now rewrite IH].
Qed.

Lemma eqb_append_cancel (s a b : string) :
  String.eqb (s ++ a) (s ++ b) = String.eqb a b.
Proof.
  induction s as [|c s IH]; simpl; [reflexivity|].
  now rewrite Ascii.eqb_refl.
Qed.

Lemma path_matches_spec (pattern p : string) :
  path_matches pattern p = true <-> p = pattern \/ p = pattern ++ newline.
Proof.
  unfold path_matches. rewrite orb_true_iff, !String.eqb_eq.
  split; intros [H|H]; auto.
Qed.

Lemma path_matches_prefix (pre a p : string) :
  path_matches (pre ++ a) (pre ++ p) = path_matches a p.
Proof.
  unfold path_matches. now rewrite append_assoc, !eqb_append_cancel.
Qed.

Lemma path_matches_prefix_inv (pre a p : string) :
  path_matches (pre ++ a) p = true ->
  exists p', p = pre ++ p' /\ path_matches a p' = true.
Proof.
  intro H. apply path_matches_spec in H. destruct H as [-> | ->].
  - exists a. split; [reflexivity|]. apply path_matches_spec. now left.
  - exists (a ++ newline). split; [apply append_assoc|].
    apply path_matches_spec. now right.
Qed.

End StringFacts.

(** ** The greeting rule *)

Section GreetingRule.
Import hello_service hello_schemas hello_router.

Lemma truthy_str (n : string) : truthy (PyStr n) = true <-> n <> "".
Proof.
  destruct n; simpl; split; intro H; try reflexivity;
    try discriminate; now elim H.
Qed.

Lemma generate_greeting_truthy (name : pyval) :
  truthy name = true ->
  generate_greeting name = PyStr ("Hello " ++ format_value name ++ "!").
Proof. unfold generate_greeting. now intros ->. Qed.

Lemma generate_greeting_falsy (name : pyval) :
  truthy name = false -> generate_greeting name = PyStr "Hello World!".
Proof. unfold generate_greeting. now intros ->. Qed.

Lemma generate_greeting_nonempty (n : string) :
  n <> "" -> generate_greeting (PyStr n) = PyStr ("Hello " ++ n ++ "!").
Proof.
  intro Hn. apply truthy_str in Hn. exact (generate_greeting_truthy _ Hn).
Qed.

(** Every greeting is a string of the shape [Hello <body>!]. *)
Lemma generate_greeting_shape (name : pyval) :
  exists body, generate_greeting name = PyStr ("Hello " ++ body ++ "!").
Proof.
  destruct (truthy name) eqn:Ht.
  - exists (format_value name). now apply generate_greeting_truthy.
  - exists "World". now apply generate_greeting_falsy.
Qed.

(** C1: for every non-empty string [n] the rule returns exactly
    ["Hello "] followed by [n] followed by ["!"]. *)
Theorem generate_greeting_named (n : string) :
  n <> "" ->
  generate_greeting (PyStr n) = PyStr ("Hello " ++ n ++ "!").
Proof.
  intro Hn. apply truthy_str in Hn.
  now rewrite (generate_greeting_truthy _ Hn).
Qed.

Lemma generate_greeting_named_witness :
  "Ada" <> "" /\
  generate_greeting (PyStr "Ada") = PyStr ("Hello " ++ "Ada" ++ "!").
Proof.
  split; [discriminate | apply (generate_greeting_named "Ada"); discriminate].
Defined.

(** C2: with the name absent ([None]) and with the empty string the rule
    returns the constant ["Hello World!"]. *)
Theorem generate_greeting_default :
  generate_greeting PyNone = PyStr "Hello World!" /\
  generate_greeting (PyStr "") = PyStr "Hello World!".
Proof. split; apply generate_greeting_falsy; reflexivity. Qed.

(** C6: the string the rule produces is never empty, and so neither is
    the [message] field of the response the handler builds from it. *)
Theorem greeting_message_nonempty (name : pyval) :
  exists r,
    hello name = Ok r /\
    generate_greeting name = PyStr (message r) /\
    message r <> "".
Proof.
  unfold hello.
  destruct (generate_greeting_shape name) as [body ->].
  eexists; repeat split. simpl; discriminate.
Qed.

(** C9: on non-empty names the rule is injective: two distinct non-empty
    names get distinct greetings. *)
Theorem generate_greeting_injective (n1 n2 : string) :
  n1 <> "" -> n2 <> "" -> n1 <> n2 ->
  generate_greeting (PyStr n1) <> generate_greeting (PyStr n2).
Proof.
  intros H1 H2 Hne Heq.
  rewrite (generate_greeting_nonempty _ H1), (generate_greeting_nonempty _ H2)
    in Heq.
  assert (E : "Hello " ++ n1 ++ "!" = "Hello " ++ n2 ++ "!") by congruence.
  apply append_cancel_l, append_cancel_r in E.
  now apply Hne.
Qed.

Lemma generate_greeting_injective_witness :
  "Ada" <> "" /\ "Bob" <> "" /\ "Ada" <> "Bob" /\
  generate_greeting (PyStr "Ada") <> generate_greeting (PyStr "Bob").
Proof.
  split; [discriminate|]. split; [discriminate|]. split; [discriminate|].
  apply (generate_greeting_injective "Ada" "Bob"); discriminate.
Defined.

(** C10: for every optional name the returned string starts with
    ["Hello "] and ends with ["!"]. *)
Theorem generate_greeting_affixes (name : pyval) :
  exists s,
    generate_greeting name = PyStr s /\
    startswith s "Hello " = true /\
    endswith s "!" = true.
Proof.
  destruct (generate_greeting_shape name) as [body ->].
  eexists; split; [reflexivity|]. split.
  - apply startswith_append.
  - change ("Hello " ++ body ++ "!") with (("Hello " ++ body) ++ "!").
    apply endswith_append.
Qed.

End GreetingRule.

(** ** Route resolution *)

Section RouterFacts.
Local Open Scope list_scope.

Variable req : Request.

Lemma no_match_cons (r : APIRoute) (l : APIRouter) :
  no_match req (r :: l) -> matches r req = NONE /\ no_match req l.
Proof.
  intro H. split; [apply H; now left | intros r' Hr'; apply H; now right].
Qed.

Lemma find_route_no_match (l : APIRouter) (partial : option APIRoute) :
  no_match req l -> find_route l req partial = find_route [] req partial.
Proof.
  induction l as [|r l IH]; intro H; [reflexivity|].
  apply no_match_cons in H. destruct H as [Hr Hl].
  simpl find_route at 1. rewrite Hr. now apply IH.
Qed.

Lemma find_route_skip_front (l1 l2 : APIRouter) (partial : option APIRoute) :
  no_match req l1 ->
  find_route (l1 ++ l2) req partial = find_route l2 req partial.
Proof.
  induction l1 as [|r l1 IH]; intro H; [reflexivity|].
  apply no_match_cons in H. destruct H as [Hr Hl].
  simpl. rewrite Hr. now apply IH.
Qed.

Lemma find_route_skip_back (l1 l2 : APIRouter) (partial : option APIRoute) :
  no_match req l2 ->
  find_route (l1 ++ l2) req partial = find_route l1 req partial.
Proof.
  intro H. revert partial; induction l1 as [|r l1 IH]; intro partial; simpl.
  - now apply find_route_no_match.
  - destruct (matches r req); [apply IH | apply IH | reflexivity].
Qed.

Lemma matches_none_iff (r : APIRoute) :
  matches r req = NONE <-> path_matches (route_path r) (path req) = false.
Proof.
  unfold matches. destruct (path_matches (route_path r) (path req)).
  - split; [|discriminate].
    destruct (existsb _ _); discriminate.
  - now split.
Qed.

End RouterFacts.

Section Composition.
Local Open Scope list_scope.

Variables l1 l2 : APIRouter.
Hypothesis Hdisj : paths_disjoint l1 l2.

(** A request can only be for one of the two groups. *)
Lemma disjoint_no_match (req : Request) : no_match req l1 \/ no_match req l2.
Proof.
  destruct (existsb (fun r => path_matches (route_path r) (path req)) l1) eqn:E.
  - right. apply existsb_exists in E. destruct E as [r1 [Hin Hp]].
    intros r2 Hr2. apply matches_none_iff.
    destruct (path_matches (route_path r2) (path req)) eqn:Hp2; [|reflexivity].
    destruct (Hdisj r1 r2 Hin Hr2 (path req) Hp Hp2).
  - left. intros r Hr. apply matches_none_iff.
    destruct (path_matches (route_path r) (path req)) eqn:Hp; [|reflexivity].
    assert (existsb (fun r => path_matches (route_path r) (path req)) l1 = true)
      as E'.
    { apply existsb_exists. exists r. now split. }
    congruence.
Qed.

Lemma find_route_app_comm (req : Request) :
  find_route (l1 ++ l2) req None = find_route (l2 ++ l1) req None.
Proof.
  destruct (disjoint_no_match req) as [H|H].
  - now rewrite find_route_skip_front, find_route_skip_back.
  - now rewrite find_route_skip_back, find_route_skip_front.
Qed.

Lemma Router_call_app_comm (req : Request) :
  Router_call (l1 ++ l2) req = Router_call (l2 ++ l1) req.
Proof.
  unfold Router_call.
  rewrite find_route_app_comm.
  rewrite !existsb_app.
  now rewrite orb_comm.
Qed.

End Composition.

Lemma paths_disjoint_prefixed (prefix : string) (l1 l2 : APIRouter) :
  paths_disjoint l1 l2 ->
  paths_disjoint (map (prefixed prefix) l1) (map (prefixed prefix) l2).
Proof.
  intros H r1 r2 H1 H2 p Hp1 Hp2.
  apply in_map_iff in H1. destruct H1 as [a [<- Ha]].
  apply in_map_iff in H2. destruct H2 as [b [<- Hb]].
  simpl in Hp1, Hp2.
  apply path_matches_prefix_inv in Hp1. destruct Hp1 as [p' [-> Hp1]].
  rewrite path_matches_prefix in Hp2.
  exact (H a b Ha Hb p' Hp1 Hp2).
Qed.

(** Including two groups with no path in common into a fresh router gives
    the same answers whichever comes first. *)
Lemma include_router_comm (a b : APIRouter) (prefix : string) (req : Request) :
  paths_disjoint a b ->
  Router_call (include_router (include_router APIRouter_new a prefix) b prefix) req
  = Router_call (include_router (include_router APIRouter_new b prefix) a prefix) req.
Proof.
  intro H. unfold include_router, APIRouter_new. simpl.
  apply Router_call_app_comm. now apply paths_disjoint_prefixed.
Qed.

(** ** The endpoints *)

Section Endpoints.
Import hello_service hello_schemas.

Lemma hello_ok (name : pyval) :
  exists s,
    generate_greeting name = PyStr s /\
    hello_router.hello name = Ok (mkHelloResponse s).
Proof.
  unfold hello_router.hello.
  destruct (generate_greeting_shape name) as [body ->].
  eexists; split; reflexivity.
Qed.

Lemma paths_disjoint_hello_health :
  paths_disjoint hello_router.router health_router.router.
Proof.
  intros r1 r2 [<-|[]] [<-|[]] p H1 H2. simpl in H1, H2.
  apply path_matches_spec in H1. destruct H1 as [-> | ->]; discriminate H2.
Qed.

Lemma route_hello (q : list (string * string)) :
  Router_call routes.router (mkRequest GET "/hello" q)
  = hello_router.hello_app (mkRequest GET "/hello" q).
Proof. reflexivity. Qed.

Lemma route_health (q : list (string * string)) :
  Router_call routes.router (mkRequest GET "/health" q)
  = health_router.health_app (mkRequest GET "/health" q).
Proof. reflexivity. Qed.

(** Under the mount prefix of the application the two endpoints are
    reached exactly as they are on the router itself. *)
Lemma mounted_endpoints (q : list (string * string)) :
  Router_call main.api_routes (mkRequest GET "/api/hello" q)
  = Router_call routes.router (mkRequest GET "/hello" q) /\
  Router_call main.api_routes (mkRequest GET "/api/health" q)
  = Router_call routes.router (mkRequest GET "/health" q).
Proof. split; reflexivity. Qed.

(** C3: for every optional name the hello endpoint answers with status
    200 and a body whose one field, [message], is the greeting of that
    name, both when the handler is called on the name and when a GET
    request for [/hello] goes through the router; with no name the body
    is [{"message": "Hello World!"}], and with [name=Ada] it is
    [{"message": "Hello Ada!"}]. *)
Theorem hello_endpoint_ok :
  (forall name : pyval,
      exists s,
        generate_greeting name = PyStr s /\
        serialize_response hello_schemas.model_dump (hello_router.hello name)
        = JSONResponse 200 (JObject [("message", JString s)])) /\
  (forall q : list (string * string),
      exists s,
        generate_greeting (Query PyNone "name" (mkRequest GET "/hello" q))
        = PyStr s /\
        Router_call routes.router (mkRequest GET "/hello" q)
        = JSONResponse 200 (JObject [("message", JString s)])) /\
  Router_call routes.router (mkRequest GET "/hello" [])
  = JSONResponse 200 (JObject [("message", JString "Hello World!")]) /\
  Router_call routes.router (mkRequest GET "/hello" [("name", "Ada")])
  = JSONResponse 200 (JObject [("message", JString "Hello Ada!")]).
Proof.
  split; [|split; [|split; reflexivity]].
  - intro name. destruct (hello_ok name) as [s [Hs Hh]].
    exists s. split; [exact Hs|]. now rewrite Hh.
  - intro q. rewrite route_hello. unfold hello_router.hello_app.
    destruct (hello_ok (Query PyNone "name" (mkRequest GET "/hello" q)))
      as [s [Hs Hh]].
    exists s. split; [exact Hs|]. now rewrite Hh.
Qed.

(** C4: the health endpoint answers every invocation, whatever the
    request carries, with status 200 and the body
    [{"status": "healthy"}]. *)
Theorem health_endpoint_ok :
  health_router.health = Ok (health_schemas.mkHealthResponse "healthy") /\
  (forall req : Request,
      health_router.health_app req
      = JSONResponse 200 (JObject [("status", JString "healthy")])) /\
  (forall q : list (string * string),
      Router_call routes.router (mkRequest GET "/health" q)
      = JSONResponse 200 (JObject [("status", JString "healthy")])).
Proof.
  split; [reflexivity|]. split; intros; reflexivity.
Qed.

Lemma hello_app_same_name (req1 req2 : Request) :
  query_get "name" (query_params req1) = query_get "name" (query_params req2) ->
  hello_router.hello_app req1 = hello_router.hello_app req2.
Proof.
  intro H. unfold hello_router.hello_app, Query. now rewrite H.
Qed.

(** C8: the paths of the two groups are disjoint, and the router that
    includes hello before health answers every request, whatever its
    method, path and query, exactly as the router that includes health
    before hello. *)
Theorem routes_order_immaterial :
  paths_disjoint hello_router.router health_router.router /\
  forall req : Request,
    Router_call routes.router req
    = Router_call routes.router_health_first req.
Proof.
  split; [exact paths_disjoint_hello_health|].
  intro req. unfold routes.router, routes.router_health_first.
  apply include_router_comm. exact paths_disjoint_hello_health.
Qed.

End Endpoints.

(** ** The rule and the handlers with their effects *)

Section Effects.
Import effectful.

Variable S : Type.

(** On [None] and on a string the rule runs to the same greeting as the
    function [hello_service.generate_greeting], raises nothing and leaves
    the state alone. *)
Lemma generate_greeting_run (name : pyval) (st : S) :
  generate_greeting (obj_of_val name) st
  = (Ok (obj_of_val (hello_service.generate_greeting name)), st).
Proof.
  destruct name as [|[|c n]]; reflexivity.
Qed.

(** Outside its domain the rule does raise: an object whose truth test
    raises makes the call end with that exception, and so does an object
    that is true and whose formatting raises. *)
Lemma generate_greeting_raises (e : exn) (format : Proc S string) (st : S) :
  generate_greeting (OObject (raise e) format) st = (Raise e, st) /\
  generate_greeting (OObject (ret true) (raise e)) st = (Raise e, st).
Proof. split; reflexivity. Qed.

Lemma hello_run (name : pyval) (st : S) :
  hello (obj_of_val name) st = (hello_router.hello name, st).
Proof.
  unfold hello, bind. rewrite generate_greeting_run.
  unfold hello_router.hello.
  destruct (generate_greeting_shape name) as [body ->]. reflexivity.
Qed.

Lemma hello_app_run (req : Request) (st : S) :
  hello_app req st = (hello_router.hello_app req, st).
Proof.
  unfold hello_app, respond. now rewrite hello_run.
Qed.

Lemma health_app_run (req : Request) (st : S) :
  health_app req st = (health_router.health_app req, st).
Proof. reflexivity. Qed.

Lemma call_run (c : endpoint_call) (st : S) :
  call c st = (response_of c, st).
Proof.
  destruct c as [req|req]; [apply hello_app_run | apply health_app_run].
Qed.

(** A run of invocations leaves the state of the process as it found it,
    and each response is the one the invocation gets on its own. *)
Lemma run_calls_run (cs : list endpoint_call) (st : S) :
  run_calls cs st = (map response_of cs, st).
Proof.
  induction cs as [|c cs IH]; [reflexivity|].
  simpl. now rewrite call_run, IH.
Qed.

(** C5: the rule is total on its input domain: run on [None] or on any
    string, in any state of the process, it ends by returning a string,
    the greeting, and raises nothing; the exceptions the truth test and
    the formatting can raise on other objects are out of reach there. *)
Theorem generate_greeting_total (st : S) (name : pyval) :
  exists s,
    generate_greeting (obj_of_val name) st = (Ok (OStr s), st) /\
    hello_service.generate_greeting name = PyStr s.
Proof.
  destruct (generate_greeting_shape name) as [body E].
  exists ("Hello " ++ body ++ "!"). split; [|exact E].
  now rewrite generate_greeting_run, E.
Qed.


End Effects.


(** * Further properties of the greeting rule *)

Section GreetingRuleMore.
Import hello_service.

Lemma truthy_inv (v : pyval) :
  truthy v = true -> exists n, v = PyStr n /\ n <> "".
Proof.
  destruct v as [|n]; intro H; [discriminate|].
  exists n. split; [reflexivity | now apply truthy_str].
Qed.

Lemma falsy_inv (v : pyval) :
  truthy v = false -> v = PyNone \/ v = PyStr "".
Proof.
  destruct v as [|[|c n]]; intro H; [now left | now right | discriminate].
Qed.

Lemma substring_append_front (n t : string) :
  substring 0 (String.length n) (n ++ t) = n.
Proof.
  induction n as [|c n IH]; simpl.
  - now destruct t.
  - now rewrite IH.
Qed.

Lemma generate_greeting_inv (name : pyval) (n : string) :
  generate_greeting name = PyStr ("Hello " ++ n ++ "!") ->
  (name = PyStr n /\ n <> "") \/
  (n = "World" /\ (name = PyNone \/ name = PyStr "")).
Proof.
  intro H. destruct (truthy name) eqn:Ht.
  - destruct (truthy_inv _ Ht) as [k [-> Hk]].
    rewrite (generate_greeting_nonempty _ Hk) in H.
    assert (E : "Hello " ++ k ++ "!" = "Hello " ++ n ++ "!") by congruence.
    apply append_cancel_l, append_cancel_r in E. subst k. now left.
  - rewrite (generate_greeting_falsy _ Ht) in H.
    change "Hello World!" with ("Hello " ++ "World" ++ "!") in H.
    assert (E : "Hello " ++ "World" ++ "!" = "Hello " ++ n ++ "!")
      by congruence.
    apply append_cancel_l, append_cancel_r in E. subst n.
    right. split; [reflexivity | now apply falsy_inv].
Qed.

(** X1: the inputs that give the greeting of a name [n] are the non-empty
    string [n] itself and, for [n = "World"] only, the absent and the empty
    name too.  So [None] is never formatted into the text, and the default
    greeting has exactly three sources. *)
Theorem generate_greeting_preimage (name : pyval) (n : string) :
  generate_greeting name = PyStr ("Hello " ++ n ++ "!") <->
  (name = PyStr n /\ n <> "") \/
  (n = "World" /\ (name = PyNone \/ name = PyStr "")).
Proof.
  split; [apply generate_greeting_inv|].
  intros [[-> Hn] | [-> [-> | ->]]].
  - now apply generate_greeting_nonempty.
  - reflexivity.
  - reflexivity.
Qed.

(** X2: two inputs get the same greeting exactly when they are the same
    input or both get the default greeting; away from the default the rule
    is injective. *)
Theorem generate_greeting_eq_iff (a b : pyval) :
  generate_greeting a = generate_greeting b <->
  a = b \/
  (generate_greeting a = PyStr "Hello World!" /\
   generate_greeting b = PyStr "Hello World!").
Proof.
  split.
  - intro H.
    destruct (truthy b) eqn:Hb.
    + destruct (truthy_inv _ Hb) as [k [-> Hk]].
      rewrite (generate_greeting_nonempty _ Hk) in H.
      apply generate_greeting_inv in H.
      destruct H as [[-> _] | [-> Ha]].
      * now left.
      * right. split; [|reflexivity].
        destruct Ha as [-> | ->]; reflexivity.
    + right. rewrite (generate_greeting_falsy _ Hb) in *. now split.
  - intros [-> | [Ha Hb]]; congruence.
Qed.

(** X3: the greeting of a non-empty name is seven characters longer than
    the name, and the name is read back from it as the characters after
    the first six. *)
Theorem generate_greeting_readback (n : string) :
  n <> "" ->
  exists s,
    generate_greeting (PyStr n) = PyStr s /\
    String.length s = String.length n + 7 /\
    substring 6 (String.length n) s = n.
Proof.
  intro Hn. exists ("Hello " ++ n ++ "!").
  split; [now apply generate_greeting_nonempty|]. split.
  - simpl. rewrite length_append. simpl. lia.
  - simpl. apply substring_append_front.
Qed.

Lemma generate_greeting_readback_witness :
  "Ada" <> "" /\
  exists s,
    generate_greeting (PyStr "Ada") = PyStr s /\
    String.length s = String.length "Ada" + 7 /\
    substring 6 (String.length "Ada") s = "Ada".
Proof.
  split; [discriminate|].
  apply (generate_greeting_readback "Ada"). discriminate.
Defined.

End GreetingRuleMore.

(** * Further properties of the hello endpoint *)

Section HelloEndpointMore.
Import hello_service hello_schemas.

Lemma hello_app_response (req : Request) :
  exists s,
    generate_greeting (Query PyNone "name" req) = PyStr s /\
    hello_router.hello_app req
    = JSONResponse 200 (JObject [("message", JString s)]).
Proof.
  unfold hello_router.hello_app.
  destruct (hello_ok (Query PyNone "name" req)) as [s [Hs Hh]].
  exists s. split; [exact Hs | now rewrite Hh].
Qed.

(** X4: two GET requests for [/hello] get the same response only when the
    names they carry get the same greeting, and always then: the response
    tells apart whatever the rule tells apart. *)
Theorem hello_response_eq_iff (q1 q2 : list (string * string)) :
  Router_call routes.router (mkRequest GET "/hello" q1)
  = Router_call routes.router (mkRequest GET "/hello" q2)
  <->
  generate_greeting (Query PyNone "name" (mkRequest GET "/hello" q1))
  = generate_greeting (Query PyNone "name" (mkRequest GET "/hello" q2)).
Proof.
  rewrite !route_hello.
  destruct (hello_app_response (mkRequest GET "/hello" q1)) as [s1 [G1 R1]].
  destruct (hello_app_response (mkRequest GET "/hello" q2)) as [s2 [G2 R2]].
  rewrite R1, R2, G1, G2. split; intro H.
  - injection H as H. now subst.
  - injection H as H. now subst.
Qed.

End HelloEndpointMore.

(** * Further properties of the routers *)

Section RouterMore.

(** How a router of two GET routes answers, case by case. *)
Lemma two_routes_cases (p1 p2 : string) (e1 e2 : Request -> Response)
  (m : http_method) (p : string) (q : list (string * string)) :
  Router_call [mkAPIRoute p1 [GET] e1; mkAPIRoute p2 [GET] e2]
    (mkRequest m p q)
  = if path_matches p1 p then
      if http_method_eqb m GET then e1 (mkRequest m p q)
      else method_not_allowed
    else if path_matches p2 p then
      if http_method_eqb m GET then e2 (mkRequest m p q)
      else method_not_allowed
    else if negb (String.eqb p "/")
            && (path_matches p1 (redirect_path p)
                || path_matches p2 (redirect_path p))
    then RedirectResponse 307 (redirect_path p) q
    else not_found.
Proof.
  cbv [Router_call find_route matches is_match existsb
       route_path route_methods endpoint method path query_params].
  destruct (path_matches p1 p), (path_matches p2 p), (http_method_eqb m GET);
    simpl; try reflexivity;
    destruct (String.eqb p "/"); simpl; try reflexivity;
    destruct (path_matches p1 (redirect_path p)),
             (path_matches p2 (redirect_path p)); reflexivity.
Qed.

Lemma routes_router_cases (m : http_method) (p : string)
  (q : list (string * string)) :
  Router_call routes.router (mkRequest m p q)
  = if path_matches "/hello" p then
      if http_method_eqb m GET
      then hello_router.hello_app (mkRequest m p q)
      else method_not_allowed
    else if path_matches "/health" p then
      if http_method_eqb m GET
      then health_router.health_app (mkRequest m p q)
      else method_not_allowed
    else if negb (String.eqb p "/")
            && (path_matches "/hello" (redirect_path p)
                || path_matches "/health" (redirect_path p))
    then RedirectResponse 307 (redirect_path p) q
    else not_found.
Proof. exact (two_routes_cases _ _ _ _ m p q). Qed.

Lemma http_method_eqb_eq (a b : http_method) :
  http_method_eqb a b = true <-> a = b.
Proof.
  destruct a, b; simpl; split; intro H; try reflexivity; discriminate H.
Qed.

Lemma http_method_eqb_neq (a b : http_method) :
  http_method_eqb a b = false <-> a <> b.
Proof.
  rewrite <- http_method_eqb_eq. destruct (http_method_eqb a b); split;
    intro H; try reflexivity; try discriminate; now elim H.
Qed.

Lemma hello_app_status (req : Request) :
  status_code_of (hello_router.hello_app req) = 200.
Proof.
  destruct (hello_app_response req) as [s [_ ->]]. reflexivity.
Qed.

(** The paths the two routes accept: each path itself, and each followed
    by one newline. *)
Lemma served_paths (p : string) :
  path_matches "/hello" p || path_matches "/health" p = true <->
  p = "/hello" \/ p = "/hello" ++ newline \/
  p = "/health" \/ p = "/health" ++ newline.
Proof.
  rewrite orb_true_iff, !path_matches_spec. tauto.
Qed.

(** X6: whatever the request, the router answers with one of four status
    codes, 200, 307, 404 or 405; no request makes a handler fail. *)
Theorem router_status_codes (req : Request) :
  In (status_code_of (Router_call routes.router req)) [200; 307; 404; 405].
Proof.
  destruct req as [m p q]. rewrite routes_router_cases.
  destruct (path_matches "/hello" p).
  - destruct (http_method_eqb m GET).
    + rewrite hello_app_status. simpl; tauto.
    + simpl; tauto.
  - destruct (path_matches "/health" p).
    + destruct (http_method_eqb m GET); simpl; tauto.
    + destruct (negb _ && _); simpl; tauto.
Qed.

(** X7: the router answers 200 exactly to the GET requests for a path one
    of the two routes accepts: [/hello] or [/health], each as it is or
    followed by one newline, which the end anchor of a route's pattern
    lets through. *)
Theorem router_ok_iff (req : Request) :
  status_code_of (Router_call routes.router req) = 200 <->
  method req = GET /\
  (path req = "/hello" \/ path req = "/hello" ++ newline \/
   path req = "/health" \/ path req = "/health" ++ newline).
Proof.
  destruct req as [m p q]. rewrite routes_router_cases, <- served_paths.
  simpl method; simpl path.
  destruct (path_matches "/hello" p); cbn [orb].
  - destruct (http_method_eqb m GET) eqn:Hm.
    + rewrite hello_app_status. apply http_method_eqb_eq in Hm.
      split; auto.
    + apply http_method_eqb_neq in Hm.
      split; [discriminate | intros [E _]; now elim Hm].
  - destruct (path_matches "/health" p).
    + destruct (http_method_eqb m GET) eqn:Hm.
      * apply http_method_eqb_eq in Hm. split; auto.
      * apply http_method_eqb_neq in Hm.
        split; [discriminate | intros [E _]; now elim Hm].
    + destruct (negb _ && _);
        (split; [discriminate | intros [_ E]; discriminate E]).
Qed.

(** X8: the router answers 405 exactly to the requests made with another
    method than GET for a path one of the two routes accepts: [/hello] or
    [/health], each as it is or followed by one newline. *)
Theorem router_method_not_allowed_iff (req : Request) :
  Router_call routes.router req = method_not_allowed <->
  method req <> GET /\
  (path req = "/hello" \/ path req = "/hello" ++ newline \/
   path req = "/health" \/ path req = "/health" ++ newline).
Proof.
  destruct req as [m p q]. rewrite routes_router_cases, <- served_paths.
  simpl method; simpl path.
  destruct (path_matches "/hello" p); cbn [orb].
  - destruct (http_method_eqb m GET) eqn:Hm.
    + apply http_method_eqb_eq in Hm.
      destruct (hello_app_response (mkRequest m p q)) as [s [_ ->]].
      split; [discriminate | intros [E _]; now elim E].
    + apply http_method_eqb_neq in Hm. split; auto.
  - destruct (path_matches "/health" p).
    + destruct (http_method_eqb m GET) eqn:Hm.
      * apply http_method_eqb_eq in Hm.
        split; [discriminate | intros [E _]; now elim E].
      * apply http_method_eqb_neq in Hm. split; auto.
    + destruct (negb _ && _);
        (split; [discriminate | intros [_ E]; discriminate E]).
Qed.

(** X9: a redirection has status 307 and carries the query of the request
    on; its target is a path one of the two routes accepts ([/hello] or
    [/health], as it is or followed by one newline), it is the requested
    path without its trailing slashes, and it is not the requested path
    itself. *)
Theorem router_redirect_target (req : Request) (c : nat) (p' : string)
  (q' : list (string * string)) :
  Router_call routes.router req = RedirectResponse c p' q' ->
  c = 307 /\
  (p' = "/hello" \/ p' = "/hello" ++ newline \/
   p' = "/health" \/ p' = "/health" ++ newline) /\
  p' = rstrip_slash (path req) /\ p' <> path req /\
  q' = query_params req.
Proof.
  destruct req as [m p q]. rewrite routes_router_cases.
  simpl path; simpl query_params.
  destruct (path_matches "/hello" p) eqn:H1.
  { destruct (http_method_eqb m GET); [|discriminate].
    destruct (hello_app_response (mkRequest m p q)) as [s [_ ->]].
    discriminate. }
  destruct (path_matches "/health" p) eqn:H2.
  { destruct (http_method_eqb m GET); discriminate. }
  destruct (negb (String.eqb p "/")); cbn [andb]; [|discriminate].
  destruct (path_matches "/hello" (redirect_path p)
            || path_matches "/health" (redirect_path p)) eqn:Hr;
    [|discriminate].
  intro H. injection H as <- <- <-.
  assert (Hs := proj1 (served_paths _) Hr).
  split; [reflexivity|]. split; [exact Hs|].
  assert (redirect_path p <> p) as Hne.
  { intro E. rewrite E in Hr. rewrite H1, H2 in Hr. discriminate. }
  split; [|split; [exact Hne | reflexivity]].
  unfold redirect_path in *. destruct (endswith p "/") eqn:He; [reflexivity|].
  exfalso.
  assert (endswith (p ++ "/") "/" = true) as Hend by apply endswith_append.
  destruct Hs as [E|[E|[E|E]]]; rewrite E in Hend; discriminate Hend.
Qed.

Lemma router_redirect_target_witness :
  Router_call routes.router (mkRequest GET "/hello//" [("name", "Ada")])
  = RedirectResponse 307 "/hello" [("name", "Ada")] /\
  307 = 307 /\
  ("/hello" = "/hello" \/ "/hello" = "/hello" ++ newline \/
   "/hello" = "/health" \/ "/hello" = "/health" ++ newline) /\
  "/hello" = rstrip_slash "/hello//" /\ "/hello" <> "/hello//" /\
  [("name", "Ada")] = [("name", "Ada")].
Proof.
  split; [reflexivity|].
  apply (router_redirect_target (mkRequest GET "/hello//" [("name", "Ada")])
           307 "/hello" [("name", "Ada")]).
  reflexivity.
Defined.

End RouterMore.

(** * The mount prefix of the application *)

Section MountPrefix.

(** A character in front of a string that is at least as long as the
    suffix does not change whether the string ends with it. *)
Lemma endswith_cons (c : ascii) (s suf : string) :
  String.length suf <= String.length s ->
  endswith (String c s) suf = endswith s suf.
Proof.
  intro H. unfold endswith. simpl String.length.
  replace (Nat.leb (String.length suf) (S (String.length s))) with true
    by (symmetry; apply Nat.leb_le; lia).
  replace (Nat.leb (String.length suf) (String.length s)) with true
    by (symmetry; apply Nat.leb_le; lia).
  replace (S (String.length s) - String.length suf)
    with (S (String.length s - String.length suf)) by lia.
  reflexivity.
Qed.

Lemma rstrip_slash_api (p : string) :
  rstrip_slash ("/api" ++ p) = "/api" ++ rstrip_slash p.
Proof. simpl. destruct (rstrip_slash p); reflexivity. Qed.

Lemma redirect_path_api (p : string) :
  redirect_path ("/api" ++ p) = "/api" ++ redirect_path p.
Proof.
  destruct p as [|c p]; [reflexivity|].
  unfold redirect_path.
  change ("/api" ++ String c p)
    with (String "/" (String "a" (String "p" (String "i" (String c p))))).
  rewrite !endswith_cons by (simpl; lia).
  destruct (endswith (String c p) "/").
  - exact (rstrip_slash_api (String c p)).
  - reflexivity.
Qed.

Lemma api_routes_cases (m : http_method) (p : string)
  (q : list (string * string)) :
  Router_call main.api_routes (mkRequest m p q)
  = if path_matches "/api/hello" p then
      if http_method_eqb m GET
      then hello_router.hello_app (mkRequest m p q)
      else method_not_allowed
    else if path_matches "/api/health" p then
      if http_method_eqb m GET
      then health_router.health_app (mkRequest m p q)
      else method_not_allowed
    else if negb (String.eqb p "/")
            && (path_matches "/api/hello" (redirect_path p)
                || path_matches "/api/health" (redirect_path p))
    then RedirectResponse 307 (redirect_path p) q
    else not_found.
Proof. exact (two_routes_cases _ _ _ _ m p q). Qed.

(** X10: mounting the router under [/api] moves it as a whole: every
    request for [/api] followed by a path is answered as the router
    answers the request for that path, a redirection leading to the same
    target below [/api]. *)
Theorem mounted_router_moves (m : http_method) (p : string)
  (q : list (string * string)) :
  Router_call main.api_routes (mkRequest m ("/api" ++ p) q)
  = relocate "/api" (Router_call routes.router (mkRequest m p q)).
Proof.
  rewrite api_routes_cases, routes_router_cases, redirect_path_api.
  change "/api/hello" with ("/api" ++ "/hello").
  change "/api/health" with ("/api" ++ "/health").
  rewrite !path_matches_prefix.
  change (String.eqb ("/api" ++ p) "/") with false.
  destruct (path_matches "/hello" p).
  - destruct (http_method_eqb m GET); [|reflexivity].
    destruct (hello_app_response (mkRequest m p q)) as [s [_ E]].
    rewrite E. exact E.
  - destruct (path_matches "/health" p).
    + destruct (http_method_eqb m GET); reflexivity.
    + destruct (String.eqb_spec p "/") as [->|Hs]; [reflexivity|].
      cbn [negb andb].
      destruct (path_matches "/hello" (redirect_path p)
                || path_matches "/health" (redirect_path p)); reflexivity.
Qed.

(** X11: the routes the application takes from the aggregated router are
    all below [/api]: none of them accepts a request whose path does not
    start with [/api], so the two handlers are reached below the prefix
    only. *)
Theorem mounted_routes_below_prefix (req : Request) :
  startswith (path req) "/api" = false ->
  no_match req main.api_routes.
Proof.
  intros H r Hr. apply matches_none_iff.
  destruct (path_matches (route_path r) (path req)) eqn:Hp; [|reflexivity].
  exfalso.
  destruct Hr as [<- | [<- | []]]; simpl route_path in Hp;
    apply path_matches_spec in Hp;
    destruct Hp as [E|E]; rewrite E in H; discriminate H.
Qed.

Lemma mounted_routes_below_prefix_witness :
  startswith "/hello" "/api" = false /\
  no_match (mkRequest GET "/hello" [("name", "Ada")]) main.api_routes.
Proof.
  split; [reflexivity|].
  apply (mounted_routes_below_prefix
           (mkRequest GET "/hello" [("name", "Ada")])).
  reflexivity.
Defined.

End MountPrefix.
